(** * LiveData.h: an observable field

    A shallow embedding of [live_data::LiveData<T>] (src/LiveData.h) and the
    properties of its change notification.

    The class is a template over the value type [T]; the development is a
    Section over [T].  Listeners are C++ callables with side effects, so the
    methods are written in a small state-and-exception monad:

    - the state is a [machine]: the container object itself ([self]), the
      program state outside the container that listeners read and write
      ([world]), and a ghost [trace] that records every listener invocation;
    - a computation ends in one of three ways ([outcome]): it returns, an
      exception leaves it, or [std::terminate] is called.  The last one is
      what C++ does when an exception tries to leave a function declared
      [noexcept].

    Modelling limits.  A listener acts on [world] only: it cannot reach the
    container that is notifying it (no re-entrant [setValue] or registration
    from inside a listener).  Allocation failure in [push_back] and failure
    of [T]'s own assignment are not modelled.  Copying a callable into the
    vector and destroying the stored listeners in [clear] are taken to run
    no user code: only a call of a listener acts on the world. *)

From stdpp Require Import base list strings.
From Stdlib Require Import ZArith.

(** ** The model *)

Section LiveData.

(** The template parameter, and the exceptions a listener may throw. *)
Context {T : Type}.
Context {Exn : Type}.

(** Program state outside the container. *)
Context {World : Type}.

(** Callables have no equality in C++.  A [Name] stands for the identity of
    a callable or of an observer object, so that the trace can say who was
    invoked.  It plays no part in what the methods do. *)
Context {Name : Type} `{EqDecision Name}.

(** How a call of a listener ends: it returns, or it throws. *)
Inductive completion : Type :=
| Ret (w : World)
| Throw (x : Exn) (w : World).

(** [using OnChangedCallback = std::function<void(const T&)>] *)
Record OnChangedCallback : Type := mkCallback {
  cb_name : Name;
  cb_call : T -> World -> completion
}.

(** [class IObserver { virtual void Observe(const T& data) = 0; }] *)
Record IObserver : Type := mkObserver {
  obs_name : Name;
  Observe : T -> World -> completion
}.

(** [std::shared_ptr<A>]: [None] is the null pointer. *)
Definition shared_ptr (A : Type) : Type := option A.

(** The private fields of [LiveData<T>]. *)
Record LiveData : Type := mkLiveData {
  callbacks : list OnChangedCallback;
  observers : list (shared_ptr IObserver);
  data_ : T
}.

(** Who was invoked, and one invocation with the argument it received. *)
Inductive listener_id : Type :=
| Callback (n : Name)
| Observer (n : Name).

(** [arg] is the value passed to the listener; [stored] is what the field
    [data_] of the container held at the moment of the call. *)
Record event : Type := Invoked {
  source : listener_id;
  arg : T;
  stored : T
}.

Record machine : Type := mkMachine {
  self : LiveData;
  world : World;
  trace : list event
}.

(** How a computation ends.  [Thrown x m]: the exception [x] is on its way to
    the caller, who may catch it and go on from [m].  [Terminated m]:
    [std::terminate] was called when the machine was [m]; nobody goes on. *)
Inductive outcome (A : Type) : Type :=
| Normal (a : A) (m : machine)
| Thrown (x : Exn) (m : machine)
| Terminated (m : machine).

Global Arguments Normal {A} a m.
Global Arguments Thrown {A} x m.
Global Arguments Terminated {A} m.

(** The machine a computation leaves behind, however it ended. *)
Definition final {A} (r : outcome A) : machine :=
  match r with
  | Normal _ m => m
  | Thrown _ m => m
  | Terminated m => m
  end.

Definition M (A : Type) : Type := machine -> outcome A.

Global Instance M_ret : MRet M := fun A a m => Normal a m.

Global Instance M_bind : MBind M := fun A B k c m =>
  match c m with
  | Normal a m' => k a m'
  | Thrown x m' => Thrown x m'
  | Terminated m' => Terminated m'
  end.

(** Read a field of [*this]. *)
Definition gets {A} (field : LiveData -> A) : M A :=
  fun m => Normal (field (self m)) m.

(** Write to [*this]. *)
Definition modify (f : LiveData -> LiveData) : M unit :=
  fun m => Normal tt (mkMachine (f (self m)) (world m) (trace m)).

(** A function declared [noexcept]: an exception that would leave it calls
    [std::terminate] instead. *)
Definition noexcept {A} (body : M A) : M A :=
  fun m =>
    match body m with
    | Thrown _ m' => Terminated m'
    | r => r
    end.

(** Calling a listener: the call is recorded, together with the value
    stored in the container right now; then the listener's body acts on the
    world and returns or throws. *)
Definition invoke (who : listener_id) (f : T -> World -> completion) (d : T)
  : M unit :=
  fun m =>
    let tr := trace m ++ [Invoked who d (data_ (self m))] in
    match f d (world m) with
    | Ret w => Normal tt (mkMachine (self m) w tr)
    | Throw x w => Thrown x (mkMachine (self m) w tr)
    end.

(** A range-based [for] over a vector. *)
Fixpoint for_each {A} (xs : list A) (body : A -> M unit) : M unit :=
  match xs with
  | [] => mret tt
  | it :: rest => body it;; for_each rest body
  end.

(** *** The methods of [LiveData<T>] *)

(** [explicit LiveData(Args&&... args) : data_(T(std::forward<Args>(args)...)) {}]
    The constructor of [T] is a parameter.  The object is created in the
    given world, with the given trace so far. *)
Definition LiveData_ctor {Args : Type} (T_ctor : Args -> T) (args : Args)
    (w : World) (tr : list event) : outcome unit :=
  Normal tt (mkMachine (mkLiveData [] [] (T_ctor args)) w tr).

(** [void addObserver(const OnChangedCallback& callback) noexcept] *)
Definition addObserver_callback (callback : OnChangedCallback) : M unit :=
  noexcept
    (modify (fun o => mkLiveData (callbacks o ++ [callback]) (observers o) (data_ o))).

(** [void addObserver(std::shared_ptr<IObserver<T>> observer) noexcept] *)
Definition addObserver_observer (observer : shared_ptr IObserver) : M unit :=
  noexcept
    (modify (fun o => mkLiveData (callbacks o) (observers o ++ [observer]) (data_ o))).

(** [void notifyAll()]: the argument of every call is the field [data_],
    read when the call is made. *)
Definition notifyAll : M unit :=
  (cbs ← gets callbacks;
   for_each cbs (fun it =>
     d ← gets data_;
     invoke (Callback (cb_name it)) (cb_call it) d));;
  (obs ← gets observers;
   for_each obs (fun it =>
     match it with
     | Some p =>
         d ← gets data_;
         invoke (Observer (obs_name p)) (Observe p) d
     | None => mret tt
     end)).

(** [void setValue(U&& data)] (not [noexcept]) *)
Definition setValue (data : T) : M unit :=
  modify (fun o => mkLiveData (callbacks o) (observers o) data);;
  notifyAll.

(** [T& Get() noexcept] *)
Definition Get : M T :=
  noexcept (gets data_).

(** [void clearCallbacksAndObservers() noexcept] *)
Definition clearCallbacksAndObservers : M unit :=
  noexcept
    (modify (fun o => mkLiveData [] (observers o) (data_ o));;
     modify (fun o => mkLiveData (callbacks o) [] (data_ o))).

(** [void setValueQuietly(U&& data) noexcept] *)
Definition setValueQuietly (data : T) : M unit :=
  noexcept (modify (fun o => mkLiveData (callbacks o) (observers o) data)).

(** [LiveData<T>& operator=(const T& data) noexcept]: calls [setValue] and
    returns [*this].  With one container in the machine, the reference
    returned is given as the container's state at that point; a chained
    call is the next computation on the same machine. *)
Definition operator_assign (data : T) : M LiveData :=
  noexcept (setValue data;; gets id).

(** *** The interface as a whole *)

Inductive op : Type :=
| OpAddCallback (callback : OnChangedCallback)
| OpAddObserver (observer : shared_ptr IObserver)
| OpSetValue (data : T)
| OpSetValueQuietly (data : T)
| OpGet
| OpAssign (data : T)
| OpClear.

Definition run_op (o : op) : M unit :=
  match o with
  | OpAddCallback callback => addObserver_callback callback
  | OpAddObserver observer => addObserver_observer observer
  | OpSetValue data => setValue data
  | OpSetValueQuietly data => setValueQuietly data
  | OpGet => Get;; mret tt
  | OpAssign data => operator_assign data;; mret tt
  | OpClear => clearCallbacksAndObservers
  end.

(** Running a sequence of calls, one after the other. *)
Fixpoint run_ops (os : list op) : M unit :=
  match os with
  | [] => mret tt
  | o :: rest => run_op o;; run_ops rest
  end.

(** ** Vocabulary of the specification *)

Global Instance listener_id_eq_dec : EqDecision listener_id.
Proof. solve_decision. Defined.

(** How a computation ended, and what an onlooker sees of it: the ending,
    the world and the invocations made. *)
Inductive ending : Type :=
| Returned
| Raised (x : Exn)
| Aborted.

Definition ending_of {A} (r : outcome A) : ending :=
  match r with
  | Normal _ _ => Returned
  | Thrown x _ => Raised x
  | Terminated _ => Aborted
  end.

Definition behaviour {A} (r : outcome A) : ending * World * list event :=
  (ending_of r, world (final r), trace (final r)).

(** [data_ = v], nothing else touched. *)
Definition store (v : T) (o : LiveData) : LiveData :=
  mkLiveData (callbacks o) (observers o) v.

Definition with_self (o : LiveData) (m : machine) : machine :=
  mkMachine o (world m) (trace m).

(** The two kinds of listener seen alike: an identity and a body. *)
Record listener : Type := mkListener {
  ident : listener_id;
  act : T -> World -> completion
}.

Definition of_callback (f : OnChangedCallback) : listener :=
  mkListener (Callback (cb_name f)) (cb_call f).

Definition of_observer (p : IObserver) : listener :=
  mkListener (Observer (obs_name p)) (Observe p).

(** The observers behind the non-null pointers, in order. *)
Definition non_null (obs : list (shared_ptr IObserver)) : list IObserver :=
  omap id obs.

(** Every registered callback, then every non-null registered observer. *)
Definition listeners (o : LiveData) : list listener :=
  (of_callback <$> callbacks o) ++ (of_observer <$> non_null (observers o)).

(** The invocations of a complete callback pass, observer pass, and
    notification pass for the value [v]. *)
Definition callback_pass (cbs : list OnChangedCallback) (v : T) : list event :=
  (fun f => Invoked (Callback (cb_name f)) v v) <$> cbs.

Definition observer_pass (obs : list (shared_ptr IObserver)) (v : T) : list event :=
  (fun p => Invoked (Observer (obs_name p)) v v) <$> non_null obs.

Definition pass (o : LiveData) (v : T) : list event :=
  callback_pass (callbacks o) v ++ observer_pass (observers o) v.

(** Calling the listeners one after the other until one throws: the
    invocations made and how it ended. *)
Fixpoint deliver (ls : list listener) (d : T) (w : World)
  : list event * completion :=
  match ls with
  | [] => ([], Ret w)
  | l :: rest =>
      match act l d w with
      | Ret w' =>
          let r := deliver rest d w' in
          (Invoked (ident l) d d :: r.1, r.2)
      | Throw x w' => ([Invoked (ident l) d d], Throw x w')
      end
  end.

(** Carry the result of [deliver] back into the machine. *)
Definition resume (m : machine) (r : list event * completion) : outcome unit :=
  match r.2 with
  | Ret w => Normal tt (mkMachine (self m) w (trace m ++ r.1))
  | Throw x w => Thrown x (mkMachine (self m) w (trace m ++ r.1))
  end.

(** A listener that never throws, and a container all of whose callbacks
    and non-null observers never throw. *)
Definition nothrow (l : listener) : Prop :=
  forall d w, exists w', act l d w = Ret w'.

Definition well_behaved (o : LiveData) : Prop :=
  Forall nothrow (listeners o).

(** The invocations of one listener within a trace, and the number of
    entries under which a listener is registered. *)
Definition invocations (who : listener_id) (es : list event) : list event :=
  filter (fun e => source e = who) es.

Definition registrations (who : listener_id) (o : LiveData) : nat :=
  length (filter (fun l => ident l = who) (listeners o)).

(** What a sequence of calls registers. *)
Definition registered_callbacks (os : list op) : list OnChangedCallback :=
  omap (fun o => match o with OpAddCallback f => Some f | _ => None end) os.

Definition registered_observers (os : list op) : list (shared_ptr IObserver) :=
  omap (fun o => match o with OpAddObserver p => Some p | _ => None end) os.

Definition is_registration (o : op) : Prop :=
  match o with
  | OpAddCallback _ | OpAddObserver _ => True
  | _ => False
  end.

(** ** Calls in sequence *)

(** What one call does to the fields of the container, whatever the
    listeners do: the assignments and vector operations of its body. *)
Definition apply_op (o : op) (s : LiveData) : LiveData :=
  match o with
  | OpAddCallback f => mkLiveData (callbacks s ++ [f]) (observers s) (data_ s)
  | OpAddObserver p => mkLiveData (callbacks s) (observers s ++ [p]) (data_ s)
  | OpSetValue v | OpSetValueQuietly v | OpAssign v => store v s
  | OpGet => s
  | OpClear => mkLiveData [] [] (data_ s)
  end.

Definition apply_ops (os : list op) (s : LiveData) : LiveData :=
  foldl (fun s o => apply_op o s) s os.

(** The value a call hands to the listeners, for the calls that reach
    [notifyAll]. *)
Definition notified (o : op) : option T :=
  match o with
  | OpSetValue v | OpAssign v => Some v
  | _ => None
  end.

Definition notified_values (os : list op) : list T := omap notified os.

(** The value a call assigns to [data_], for the calls that assign. *)
Definition written (o : op) : option T :=
  match o with
  | OpSetValue v | OpSetValueQuietly v | OpAssign v => Some v
  | _ => None
  end.

Definition last_written (os : list op) : option T := last (omap written os).

(** The invocations a sequence of calls makes when no listener throws. *)
Fixpoint full_trace (os : list op) (s : LiveData) : list event :=
  match os with
  | [] => []
  | o :: rest =>
      match notified o with
      | Some v => pass s v
      | None => []
      end ++ full_trace rest (apply_op o s)
  end.

(** The identities behind a callback sequence and an observer sequence. *)
Definition listener_ids (cbs : list OnChangedCallback)
    (obs : list (shared_ptr IObserver)) : list listener_id :=
  ((fun f => Callback (cb_name f)) <$> cbs) ++
  ((fun p => Observer (obs_name p)) <$> non_null obs).

(** The world a listener leaves behind, whether it returns or throws. *)
Definition effect (l : listener) (d : T) (w : World) : World :=
  match act l d w with
  | Ret w' => w'
  | Throw _ w' => w'
  end.

(** The world after the listeners [ls] have acted on [w] one after the
    other, each called with [d]. *)
Definition after_pass (ls : list listener) (d : T) (w : World) : World :=
  foldl (fun w l => effect l d w) w ls.


End LiveData.

(** ** A concrete program

  An [int] field, listeners that write to a log, and exceptions carrying a
  message. *)

Module Demo.

Definition log : Type := list string.

Definition cb : Type := @OnChangedCallback Z string log string.
Definition obs : Type := @IObserver Z string log string.
Definition live : Type := @LiveData Z string log string.
Definition mach : Type := @machine Z string log string.

(** [[&](const int&){ log.push_back(tag); }] *)
Definition logger (tag : string) : cb :=
  mkCallback tag (fun _ w => Ret (w ++ [tag])).

(** [[](const int&){ throw std::runtime_error(msg); }] *)
Definition thrower (msg : string) : cb :=
  mkCallback msg (fun _ w => Throw msg w).

(** An observer object whose [Observe] writes to the log. *)
Definition watcher (tag : string) : obs :=
  mkObserver tag (fun _ w => Ret (w ++ [tag])).

(** An observer object whose [Observe] throws. *)
Definition faulty (msg : string) : obs :=
  mkObserver msg (fun _ w => Throw msg w).

Definition start (o : live) : mach := mkMachine o [] [].

(** Callbacks A and B, observers: a null pointer and P; the value is 0. *)
Definition plain : mach :=
  start (mkLiveData [logger "A"; logger "B"] [None; Some (watcher "P")] 0%Z).

(** A, then a callback that throws, then B; one observer P. *)
Definition broken : mach :=
  start (mkLiveData [logger "A"; thrower "boom"; logger "B"]
                    [Some (watcher "P")] 0%Z).

(** One callback A, and an observer that throws. *)
Definition broken_observer : mach :=
  start (mkLiveData [logger "A"] [Some (faulty "bang"); Some (watcher "P")] 0%Z).

End Demo.

(** The calls of a small session on an [int] field: two callbacks are
    registered, the value is set, set quietly, the listeners are cleared, a
    third callback is registered and the value is assigned. *)

Module Session.

Definition calls : list (@op Z string Demo.log string) :=
  [OpAddCallback (Demo.logger "A"); OpAddCallback (Demo.logger "B");
   OpSetValue 5%Z; OpSetValueQuietly 9%Z; OpClear;
   OpAddCallback (Demo.logger "C"); OpAssign 1%Z].

(** Calls that never reach [notifyAll]. *)
Definition silent_calls : list (@op Z string Demo.log string) :=
  [OpAddCallback (Demo.thrower "boom"); OpSetValueQuietly 9%Z; OpGet;
   OpAddObserver None; OpClear].

(** An empty container holding 0. *)
Definition empty : Demo.mach := Demo.start (mkLiveData [] [] 0%Z).

(** A container with no callback and only null pointers as observers. *)
Definition only_nulls : Demo.mach :=
  Demo.start (mkLiveData [] [None; None] 0%Z).

End Session.

(** ** Properties *)

Section Properties.

Context {T Exn World Name : Type} `{EqDecision Name}.

Local Abbreviation LiveData := (@LiveData T Exn World Name).
Local Abbreviation machine := (@machine T Exn World Name).
Local Abbreviation listener := (@listener T Exn World Name).
Local Abbreviation event := (@event T Name).
Local Abbreviation M := (@M T Exn World Name).
Local Abbreviation OnChangedCallback := (@OnChangedCallback T Exn World Name).
Local Abbreviation IObserver := (@IObserver T Exn World Name).
Local Abbreviation op := (@op T Exn World Name).

Implicit Types (m : machine) (o : LiveData) (v d : T) (w : World).
Implicit Types (ls : list listener) (es : list event).

(** *** The monad *)

Lemma bind_run {A B} (c : M A) (k : A -> M B) m :
  (c ≫= k) m =
  match c m with
  | Normal a m' => k a m'
  | Thrown x m' => Thrown x m'
  | Terminated m' => Terminated m'
  end.
Proof. reflexivity. Qed.

Lemma bind_Normal {A B} (c : M A) (k : A -> M B) m a m' :
  c m = Normal a m' -> (c ≫= k) m = k a m'.
Proof. intros Hc. rewrite bind_run, Hc. reflexivity. Qed.

Lemma bind_Thrown {A B} (c : M A) (k : A -> M B) m x m' :
  c m = Thrown x m' -> (c ≫= k) m = Thrown x m'.
Proof. intros Hc. rewrite bind_run, Hc. reflexivity. Qed.

Lemma machine_eta m : mkMachine (self m) (world m) (trace m) = m.
Proof. destruct m; reflexivity. Qed.

Lemma resume_Ret m es w :
  resume m (es, Ret w) = Normal tt (mkMachine (self m) w (trace m ++ es)).
Proof. reflexivity. Qed.

Lemma resume_Throw m es x w :
  resume m (es, Throw x w) = Thrown x (mkMachine (self m) w (trace m ++ es)).
Proof. reflexivity. Qed.

(** *** [deliver]: calling listeners in order, stopping at a throw *)

Lemma deliver_app ls1 ls2 d w :
  deliver (ls1 ++ ls2) d w =
  match (deliver ls1 d w).2 with
  | Ret w' =>
      ((deliver ls1 d w).1 ++ (deliver ls2 d w').1, (deliver ls2 d w').2)
  | Throw x w' => deliver ls1 d w
  end.
Proof.
  revert w. induction ls1 as [|l ls1 IH]; intros w; simpl.
  - destruct (deliver ls2 d w); reflexivity.
  - destruct (act l d w) as [w'|x w']; simpl; [|reflexivity].
    rewrite IH. destruct (deliver ls1 d w') as [es [w''|x w'']]; reflexivity.
Qed.

(** The invocations made are always an initial part of the full pass. *)
Lemma deliver_prefix ls d w :
  (deliver ls d w).1 `prefix_of` (fun l => Invoked (ident l) d d) <$> ls.
Proof.
  revert w. induction ls as [|l ls IH]; intros w; simpl.
  - reflexivity.
  - destruct (act l d w) as [w'|x w']; simpl.
    + apply prefix_cons, IH.
    + apply prefix_cons, prefix_nil.
Qed.

(** If no listener threw, every one of them was called. *)
Lemma deliver_Ret ls d w w' :
  (deliver ls d w).2 = Ret w' ->
  (deliver ls d w).1 = (fun l => Invoked (ident l) d d) <$> ls.
Proof.
  revert w. induction ls as [|l ls IH]; intros w; simpl; [reflexivity|].
  destruct (act l d w) as [w1|x w1]; simpl; [|discriminate].
  intros Hr. f_equal. apply IH, Hr.
Qed.

(** Listeners that never throw are all called. *)
Lemma deliver_nothrow ls d w :
  Forall nothrow ls -> exists w', (deliver ls d w).2 = Ret w'.
Proof.
  intros Hls. revert w. induction Hls as [|l ls Hl _ IH]; intros w; simpl.
  - eauto.
  - destruct (Hl d w) as [w1 ->]. simpl. apply IH.
Qed.

(** A throw comes from one of the listeners, and stops the pass there:
    the listeners before it returned, the ones after it were not called. *)
Lemma deliver_Throw ls d w x w' :
  (deliver ls d w).2 = Throw x w' ->
  exists before l after w0,
    ls = before ++ l :: after /\
    act l d w0 = Throw x w' /\
    (deliver before d w).2 = Ret w0 /\
    (deliver ls d w).1 = (fun l => Invoked (ident l) d d) <$> (before ++ [l]).
Proof.
  revert w. induction ls as [|l ls IH]; intros w; simpl; [discriminate|].
  destruct (act l d w) as [w1|y w1] eqn:Hact; simpl.
  - intros Hr. destruct (IH _ Hr) as (before & l' & after & w0 & -> & Hl' & Hb & Hes).
    exists (l :: before), l', after, w0. simpl. rewrite Hact. simpl.
    repeat split; [assumption..|]. rewrite Hes. reflexivity.
  - intros [= -> ->]. exists [], l, ls, w. repeat split; assumption.
Qed.

(** *** [notifyAll] and [setValue] in terms of [deliver] *)

Lemma for_each_callbacks (cbs : list OnChangedCallback) m :
  for_each cbs (fun it =>
    d ← gets data_; invoke (Callback (cb_name it)) (cb_call it) d) m =
  resume m (deliver (of_callback <$> cbs) (data_ (self m)) (world m)).
Proof.
  revert m. induction cbs as [|f cbs IH]; intros m.
  - simpl. rewrite resume_Ret, app_nil_r, machine_eta. reflexivity.
  - simpl for_each. rewrite bind_run, bind_run. unfold gets, invoke.
    rewrite fmap_cons. simpl deliver. simpl act.
    destruct (cb_call f (data_ (self m)) (world m)) as [w1|x w1].
    + rewrite IH. unfold resume. simpl.
      destruct (deliver _ _ _) as [es [w2|x w2]]; simpl;
        rewrite <- app_assoc; reflexivity.
    + reflexivity.
Qed.

Lemma for_each_observers (obs : list (shared_ptr IObserver)) m :
  for_each obs (fun it =>
    match it with
    | Some p => d ← gets data_; invoke (Observer (obs_name p)) (Observe p) d
    | None => mret tt
    end) m =
  resume m (deliver (of_observer <$> non_null obs) (data_ (self m)) (world m)).
Proof.
  revert m. induction obs as [|[p|] obs IH]; intros m.
  - simpl. rewrite resume_Ret, app_nil_r, machine_eta. reflexivity.
  - simpl for_each. rewrite bind_run, bind_run. unfold gets, invoke.
    unfold non_null. simpl omap. fold (non_null obs).
    rewrite fmap_cons. simpl deliver. simpl act.
    destruct (Observe p (data_ (self m)) (world m)) as [w1|x w1].
    + rewrite IH. unfold resume. simpl.
      destruct (deliver _ _ _) as [es [w2|x w2]]; simpl;
        rewrite <- app_assoc; reflexivity.
    + reflexivity.
  - simpl for_each. rewrite bind_run. simpl. apply IH.
Qed.

Lemma notifyAll_deliver m :
  notifyAll m =
  resume m (deliver (listeners (self m)) (data_ (self m)) (world m)).
Proof.
  unfold notifyAll, listeners.
  rewrite bind_run, bind_run. unfold gets at 1.
  rewrite for_each_callbacks, deliver_app. unfold resume at 1.
  destruct (deliver (of_callback <$> _) _ _) as [es1 [w1|x w1]]; simpl.
  - rewrite bind_run. unfold gets at 1. rewrite for_each_observers.
    unfold resume. simpl.
    destruct (deliver (of_observer <$> _) _ _) as [es2 [w2|x w2]]; simpl;
      rewrite <- app_assoc; reflexivity.
  - reflexivity.
Qed.

Lemma listeners_store v o : listeners (store v o) = listeners o.
Proof. reflexivity. Qed.

Lemma setValue_deliver v m :
  setValue v m =
  resume (with_self (store v (self m)) m)
         (deliver (listeners (self m)) v (world m)).
Proof. unfold setValue. rewrite bind_run. simpl. apply notifyAll_deliver. Qed.

(** The full pass, listener by listener. *)
Lemma pass_listeners o v :
  pass o v = (fun l => Invoked (ident l) v v) <$> listeners o.
Proof.
  unfold pass, listeners, callback_pass, observer_pass.
  rewrite fmap_app, <- !list_fmap_compose. reflexivity.
Qed.

(** [setValue] never calls [std::terminate]. *)
Lemma setValue_not_Terminated v m m' : setValue v m <> Terminated m'.
Proof.
  rewrite setValue_deliver. unfold resume.
  destruct (deliver _ _ _) as [es [w|x w]]; discriminate.
Qed.

(** However [setValue] ends, the container holds the new value and the
    listener sequences are as before. *)
Lemma setValue_self v m : self (final (setValue v m)) = store v (self m).
Proof.
  rewrite setValue_deliver. unfold resume.
  destruct (deliver _ _ _) as [es [w|x w]]; reflexivity.
Qed.

(** However [setValue] ends, the invocations it made are an initial part of
    the notification pass. *)
Lemma setValue_trace v m :
  exists es, trace (final (setValue v m)) = trace m ++ es /\
             (es `prefix_of` pass (self m) v).
Proof.
  rewrite setValue_deliver, pass_listeners.
  pose proof (deliver_prefix (listeners (self m)) v (world m)) as Hp.
  unfold resume. destruct (deliver _ _ _) as [es [w|x w]]; simpl in *; eauto.
Qed.

(** A [setValue] that returns has made the whole pass. *)
Lemma setValue_Normal v m m' :
  setValue v m = Normal tt m' ->
  self m' = store v (self m) /\ trace m' = trace m ++ pass (self m) v.
Proof.
  rewrite setValue_deliver, pass_listeners.
  pose proof (deliver_Ret (listeners (self m)) v (world m)) as Hr.
  unfold resume. destruct (deliver _ _ _) as [es [w|x w]]; simpl in *;
    [|discriminate].
  intros [= <-]. simpl. rewrite (Hr w eq_refl). split; reflexivity.
Qed.

(** With listeners that never throw, [setValue] returns. *)
Lemma setValue_returns v m :
  well_behaved (self m) -> exists m', setValue v m = Normal tt m'.
Proof.
  intros Hwb. rewrite setValue_deliver.
  destruct (deliver_nothrow _ v (world m) Hwb) as [w' Hw'].
  unfold resume. rewrite Hw'. eauto.
Qed.

(** Fail-fast: when [setValue] throws, some listener threw that exception,
    everything registered before it was called and nothing after it. *)
Lemma setValue_Thrown v m x m' :
  setValue v m = Thrown x m' ->
  exists before l after w0,
    listeners (self m) = before ++ l :: after /\
    act l v w0 = Throw x (world m') /\
    self m' = store v (self m) /\
    trace m' = trace m ++ ((fun l => Invoked (ident l) v v) <$> (before ++ [l])).
Proof.
  rewrite setValue_deliver.
  pose proof (deliver_Throw (listeners (self m)) v (world m)) as Ht.
  unfold resume. destruct (deliver _ _ _) as [es [w|y w]]; simpl in *;
    [discriminate|].
  intros [= -> <-]. simpl.
  destruct (Ht x w eq_refl) as (before & l & after & w0 & Hls & Hl & _ & Hes).
  exists before, l, after, w0. rewrite Hes. repeat split; assumption.
Qed.

(** *** [operator=] against [setValue] *)

Lemma operator_assign_run v m :
  operator_assign v m =
  match setValue v m with
  | Normal _ m' => Normal (self m') m'
  | Thrown _ m' => Terminated m'
  | Terminated m' => Terminated m'
  end.
Proof.
  unfold operator_assign, noexcept. rewrite bind_run.
  destruct (setValue v m); reflexivity.
Qed.

(** When [setValue] returns, [operator=] returns too, leaves the same
    machine, and yields the container. *)
Lemma operator_assign_Normal v m m' :
  setValue v m = Normal tt m' -> operator_assign v m = Normal (self m') m'.
Proof. intros Hs. rewrite operator_assign_run, Hs. reflexivity. Qed.

(** When [setValue] throws, [operator=] does not: the program is terminated. *)
Lemma operator_assign_Thrown v m x m' :
  setValue v m = Thrown x m' -> operator_assign v m = Terminated m'.
Proof. intros Hs. rewrite operator_assign_run, Hs. reflexivity. Qed.

Lemma operator_assign_final v m :
  final (operator_assign v m) = final (setValue v m).
Proof. rewrite operator_assign_run. destruct (setValue v m); reflexivity. Qed.

(** *** Counting invocations and registrations *)

Lemma invocations_app who es1 es2 :
  invocations who (es1 ++ es2) = invocations who es1 ++ invocations who es2.
Proof. apply filter_app. Qed.

(** In a complete pass a listener is called once for every entry under
    which it is registered. *)
Lemma invocations_pass who o v :
  invocations who (pass o v) =
  replicate (registrations who o) (Invoked who v v).
Proof.
  rewrite pass_listeners. unfold invocations, registrations.
  induction (listeners o) as [|l ls IH]; [reflexivity|].
  rewrite fmap_cons, !filter_cons. simpl.
  destruct (decide (ident l = who)) as [->|Hne]; simpl; rewrite IH; reflexivity.
Qed.

Lemma registrations_callbacks_app who cbs1 cbs2 obs d :
  registrations who (mkLiveData (cbs1 ++ cbs2) obs d) =
  registrations who (mkLiveData cbs1 obs d) +
  length (filter (fun l : listener => ident l = who) (of_callback <$> cbs2)).
Proof.
  unfold registrations, listeners. simpl.
  rewrite fmap_app, !filter_app, !length_app. lia.
Qed.

Lemma registrations_replicate (f : OnChangedCallback) k :
  length (filter (fun l : listener => ident l = Callback (cb_name f))
                 (of_callback <$> replicate k f)) = k.
Proof.
  induction k as [|k IH]; [reflexivity|].
  simpl replicate. rewrite fmap_cons, filter_cons. simpl.
  destruct (decide _) as [_|Hne]; [|contradiction].
  simpl. rewrite IH. reflexivity.
Qed.

(** *** Registration *)

Lemma addObserver_callback_run (f : OnChangedCallback) m :
  addObserver_callback f m =
  Normal tt (with_self (mkLiveData (callbacks (self m) ++ [f])
                                   (observers (self m)) (data_ (self m))) m).
Proof. reflexivity. Qed.

Lemma addObserver_observer_run (p : shared_ptr IObserver) m :
  addObserver_observer p m =
  Normal tt (with_self (mkLiveData (callbacks (self m))
                                   (observers (self m) ++ [p]) (data_ (self m))) m).
Proof. reflexivity. Qed.

(** A run of registrations appends what it registers, in the order of the
    calls, and does nothing else. *)
Lemma run_registrations (os : list op) m :
  Forall is_registration os ->
  run_ops os m =
  Normal tt (with_self (mkLiveData
                          (callbacks (self m) ++ registered_callbacks os)
                          (observers (self m) ++ registered_observers os)
                          (data_ (self m))) m).
Proof.
  intros Hos. revert m. induction Hos as [|o os Ho _ IH]; intros m.
  - simpl. unfold registered_callbacks, registered_observers, with_self. simpl.
    rewrite !app_nil_r. destruct m as [[cbs obs d] w tr]. reflexivity.
  - simpl run_ops. destruct o; try contradiction; simpl run_op.
    + erewrite bind_Normal by apply addObserver_callback_run.
      rewrite IH. unfold with_self. simpl.
      unfold registered_callbacks, registered_observers. simpl.
      rewrite <- app_assoc. reflexivity.
    + erewrite bind_Normal by apply addObserver_observer_run.
      rewrite IH. unfold with_self. simpl.
      unfold registered_callbacks, registered_observers. simpl.
      rewrite <- app_assoc. reflexivity.
Qed.

Lemma registered_callbacks_replicate (f : OnChangedCallback) k :
  registered_callbacks (replicate k (OpAddCallback f)) = replicate k f.
Proof.
  unfold registered_callbacks.
  induction k as [|k IH]; [reflexivity|]. simpl. f_equal. apply IH.
Qed.

Lemma registered_observers_replicate (f : OnChangedCallback) k :
  registered_observers (replicate k (OpAddCallback f)) = [].
Proof.
  unfold registered_observers.
  induction k as [|k IH]; [reflexivity|]. simpl. apply IH.
Qed.

Lemma is_registration_replicate (f : OnChangedCallback) k :
  Forall is_registration (replicate k (OpAddCallback f)).
Proof. apply Forall_replicate. exact I. Qed.

(** Null pointers among the observers do not count as listeners. *)
Lemma non_null_skip (before after : list (shared_ptr IObserver)) :
  non_null (before ++ None :: after) = non_null (before ++ after).
Proof. unfold non_null. rewrite !omap_app. reflexivity. Qed.

(** What [resume] shows to an onlooker does not depend on the container. *)
Lemma behaviour_resume m1 m2 (r : list event * completion) :
  world m1 = world m2 -> trace m1 = trace m2 ->
  behaviour (resume m1 r) = behaviour (resume m2 r).
Proof.
  intros Hw Ht. unfold behaviour, resume.
  destruct r as [es [w|x w]]; simpl; rewrite Ht; reflexivity.
Qed.

(** *** What the listeners do to the world *)

Lemma after_pass_cons (l : listener) ls d w :
  after_pass (l :: ls) d w = after_pass ls d (effect l d w).
Proof. reflexivity. Qed.

Lemma after_pass_app ls1 ls2 d w :
  after_pass (ls1 ++ ls2) d w = after_pass ls2 d (after_pass ls1 d w).
Proof. apply foldl_app. Qed.

(** When no listener threw, the world is the one they leave, having acted
    one after the other. *)
Lemma deliver_Ret_world ls d w w' :
  (deliver ls d w).2 = Ret w' -> w' = after_pass ls d w.
Proof.
  revert w. induction ls as [|l ls IH]; intros w.
  - simpl. intros [= <-]. reflexivity.
  - rewrite after_pass_cons. simpl deliver. unfold effect.
    destruct (act l d w) as [w1|x w1]; simpl; [|discriminate]. apply IH.
Qed.

(** However the pass ends, the listeners called are an initial part of the
    list, the invocations recorded are theirs, and the world is the one
    they leave. *)
Lemma deliver_called ls d w :
  exists called,
    called `prefix_of` ls /\
    (deliver ls d w).1 = (fun l => Invoked (ident l) d d) <$> called /\
    match (deliver ls d w).2 with
    | Ret w' => w' = after_pass called d w
    | Throw _ w' => w' = after_pass called d w
    end.
Proof.
  revert w. induction ls as [|l ls IH]; intros w; simpl deliver.
  - exists []. split; [reflexivity|]. split; reflexivity.
  - destruct (act l d w) as [w1|x w1] eqn:Hact; simpl.
    + destruct (IH w1) as (called & Hpre & Hes & Hw).
      exists (l :: called). split; [apply prefix_cons, Hpre|].
      split; [rewrite Hes; reflexivity|].
      rewrite after_pass_cons. unfold effect. rewrite Hact. exact Hw.
    + exists [l]. split; [apply prefix_cons, prefix_nil|].
      split; [reflexivity|].
      rewrite after_pass_cons. unfold effect. rewrite Hact. reflexivity.
Qed.

(** A [setValue] that returns leaves the world its listeners leave, all of
    them having acted in the order of the pass. *)
Lemma setValue_Normal_world v m m' :
  setValue v m = Normal tt m' ->
  world m' = after_pass (listeners (self m)) v (world m).
Proof.
  rewrite setValue_deliver.
  pose proof (deliver_Ret_world (listeners (self m)) v (world m)) as Hw.
  unfold resume. destruct (deliver _ _ _) as [es [w1|x w1]]; simpl in *;
    [|discriminate].
  intros [= <-]. simpl. apply Hw. reflexivity.
Qed.

(** However [setValue] ends, the listeners it called are an initial part
    of the pass, and the trace and the world are theirs. *)
Lemma setValue_called v m :
  exists called,
    called `prefix_of` listeners (self m) /\
    trace (final (setValue v m)) =
      trace m ++ ((fun l => Invoked (ident l) v v) <$> called) /\
    world (final (setValue v m)) = after_pass called v (world m).
Proof.
  rewrite setValue_deliver.
  destruct (deliver_called (listeners (self m)) v (world m))
    as (called & Hpre & Hes & Hw).
  exists called. split; [exact Hpre|]. unfold resume.
  destruct (deliver _ _ _) as [es [w1|x w1]]; simpl in *; subst; split;
    reflexivity.
Qed.

(** ** The claims *)

(** C1.  Calling [setValue v1] and then [setValue v2]: once both calls have
    returned, [Get] yields [v2]; the invocations made are the notification
    pass for [v1] followed by the pass for [v2]; the bodies of the listeners
    have run: the world is the one obtained by letting every listener act
    with [v1], in the order of the pass, and then every listener act with
    [v2]; and every listener is called twice for each entry it is
    registered under, first with [v1] and then with [v2], each time with
    [data_] already holding the value it receives.  With listeners that
    never throw, both calls do return. *)
Theorem setValue_twice m v1 v2 :
  (forall m2,
     (setValue v1;; setValue v2) m = Normal tt m2 ->
     Get m2 = Normal v2 m2 /\
     trace m2 = trace m ++ pass (self m) v1 ++ pass (self m) v2 /\
     world m2 =
       after_pass (listeners (self m)) v2
         (after_pass (listeners (self m)) v1 (world m)) /\
     forall who,
       invocations who (pass (self m) v1 ++ pass (self m) v2) =
       replicate (registrations who (self m)) (Invoked who v1 v1) ++
       replicate (registrations who (self m)) (Invoked who v2 v2)) /\
  (well_behaved (self m) ->
   exists m2, (setValue v1;; setValue v2) m = Normal tt m2).
Proof.
  split.
  - intros m2. rewrite bind_run.
    destruct (setValue v1 m) as [[] m1|x m1|m1] eqn:H1; try discriminate.
    intros H2.
    destruct (setValue_Normal _ _ _ H1) as [Hs1 Ht1].
    destruct (setValue_Normal _ _ _ H2) as [Hs2 Ht2].
    split; [|split; [|split]].
    + unfold Get, noexcept, gets. rewrite Hs2. reflexivity.
    + rewrite Ht2, Ht1, Hs1, <- app_assoc. reflexivity.
    + rewrite (setValue_Normal_world _ _ _ H2), (setValue_Normal_world _ _ _ H1).
      rewrite Hs1. reflexivity.
    + intros who. rewrite invocations_app, !invocations_pass. reflexivity.
  - intros Hwb. rewrite bind_run.
    destruct (setValue_returns v1 m Hwb) as [m1 H1]. rewrite H1.
    apply setValue_returns.
    destruct (setValue_Normal _ _ _ H1) as [-> _]. exact Hwb.
Qed.

(** C2.  The notification pass of [setValue] and of [operator=]: first the
    callbacks in the order of the sequence, then the non-null observers in
    the order of the sequence, each called with the new value.  Whatever the
    ending, the invocations made are an initial part of that list, and the
    container holds the new value; when the call returns they are the whole
    list.  The order of the sequences is the order of registration.  The
    listeners do run in that order: whatever the ending, the world is the
    one left by the listeners called, each acting on what the one before it
    left; when the call returns, every callback has acted, in sequence
    order, and then every non-null observer, in sequence order, on the
    world the callbacks left. *)
Theorem notification_order m v :
  let cb_events := callback_pass (callbacks (self m)) v in
  let ob_events := observer_pass (observers (self m)) v in
  (exists es, trace (final (setValue v m)) = trace m ++ es /\
              (es `prefix_of` cb_events ++ ob_events)) /\
  (exists es, trace (final (operator_assign v m)) = trace m ++ es /\
              (es `prefix_of` cb_events ++ ob_events)) /\
  data_ (self (final (setValue v m))) = v /\
  data_ (self (final (operator_assign v m))) = v /\
  (forall m', setValue v m = Normal tt m' ->
              trace m' = trace m ++ cb_events ++ ob_events) /\
  (forall a m', operator_assign v m = Normal a m' ->
                trace m' = trace m ++ cb_events ++ ob_events) /\
  (well_behaved (self m) ->
   exists m', setValue v m = Normal tt m' /\
              operator_assign v m = Normal (self m') m') /\
  (forall regs : list op,
     Forall is_registration regs ->
     exists m1, run_ops regs m = Normal tt m1 /\
                callbacks (self m1) =
                  callbacks (self m) ++ registered_callbacks regs /\
                observers (self m1) =
                  observers (self m) ++ registered_observers regs) /\
  (exists called,
     called `prefix_of` listeners (self m) /\
     trace (final (setValue v m)) =
       trace m ++ ((fun l => Invoked (ident l) v v) <$> called) /\
     world (final (setValue v m)) = after_pass called v (world m) /\
     trace (final (operator_assign v m)) =
       trace m ++ ((fun l => Invoked (ident l) v v) <$> called) /\
     world (final (operator_assign v m)) = after_pass called v (world m)) /\
  (forall m', setValue v m = Normal tt m' ->
              world m' =
                after_pass (of_observer <$> non_null (observers (self m))) v
                  (after_pass (of_callback <$> callbacks (self m)) v
                     (world m))) /\
  (forall a m', operator_assign v m = Normal a m' ->
                world m' =
                  after_pass (of_observer <$> non_null (observers (self m))) v
                    (after_pass (of_callback <$> callbacks (self m)) v
                       (world m))).
Proof.
  intros cb_events ob_events.
  assert (Hworld : forall m', setValue v m = Normal tt m' ->
            world m' =
              after_pass (of_observer <$> non_null (observers (self m))) v
                (after_pass (of_callback <$> callbacks (self m)) v (world m))).
  { intros m' Hm'. rewrite (setValue_Normal_world _ _ _ Hm').
    unfold listeners. apply after_pass_app. }
  assert (Hset : forall m', setValue v m = Normal tt m' ->
                   trace m' = trace m ++ cb_events ++ ob_events).
  { intros m' Hm'. apply setValue_Normal in Hm'. apply Hm'. }
  repeat split.
  - apply setValue_trace.
  - rewrite operator_assign_final. apply setValue_trace.
  - rewrite setValue_self. reflexivity.
  - rewrite operator_assign_final, setValue_self. reflexivity.
  - exact Hset.
  - intros a m'. rewrite operator_assign_run.
    destruct (setValue v m) as [[] m1|x m1|m1] eqn:H1; try discriminate.
    intros [= _ <-]. apply Hset. reflexivity.
  - intros Hwb. destruct (setValue_returns v m Hwb) as [m' Hm'].
    exists m'. split; [exact Hm'|]. apply operator_assign_Normal, Hm'.
  - intros regs Hregs. eexists. split; [apply run_registrations, Hregs|].
    split; reflexivity.
  - destruct (setValue_called v m) as (called & Hpre & Htr & Hw).
    exists called. rewrite operator_assign_final. repeat split; assumption.
  - exact Hworld.
  - intros a m'. rewrite operator_assign_run.
    destruct (setValue v m) as [[] m1|x m1|m1] eqn:H1; try discriminate.
    intros [= _ <-]. apply Hworld. reflexivity.
Qed.

(** C3.  [setValueQuietly v] returns, [Get] then yields [v], no listener is
    invoked and the world is untouched, however many listeners are
    registered; the two sequences are unchanged. *)
Theorem setValueQuietly_silent m v :
  exists m',
    setValueQuietly v m = Normal tt m' /\
    Get m' = Normal v m' /\
    trace m' = trace m /\
    world m' = world m /\
    callbacks (self m') = callbacks (self m) /\
    observers (self m') = observers (self m).
Proof. eexists. repeat split. Qed.

(** C5.  A null pointer among the observers: [setValue] behaves as if the
    slot were not there, and the slot stays in the sequence.  [setValue]
    never terminates the program, and it throws only what a callback or a
    non-null observer threw.  With listeners that never throw it returns,
    having called every callback and every non-null observer: the trace
    shows one invocation per registered entry, and the world is the one
    left by every callback and then every observer other than the null
    slot acting in turn.  Whenever it returns, that is the world. *)
Theorem null_observer_skipped m v
    (before after : list (shared_ptr IObserver)) :
  observers (self m) = before ++ None :: after ->
  let m0 :=
    with_self (mkLiveData (callbacks (self m)) (before ++ after)
                          (data_ (self m))) m in
  behaviour (setValue v m) = behaviour (setValue v m0) /\
  observers (self (final (setValue v m))) = before ++ None :: after /\
  (forall m', setValue v m <> Terminated m') /\
  (forall x m', setValue v m = Thrown x m' ->
     exists l w0, l ∈ listeners (self m) /\ act l v w0 = Throw x (world m')) /\
  (well_behaved (self m) ->
   exists m',
     setValue v m = Normal tt m' /\
     trace m' = trace m ++ callback_pass (callbacks (self m)) v ++
                          observer_pass (before ++ after) v /\
     world m' =
       after_pass ((of_callback <$> callbacks (self m)) ++
                   (of_observer <$> non_null (before ++ after))) v (world m) /\
     forall who,
       invocations who (callback_pass (callbacks (self m)) v ++
                        observer_pass (before ++ after) v) =
       replicate (registrations who (self m)) (Invoked who v v)) /\
  (forall m',
     setValue v m = Normal tt m' ->
     trace m' = trace m ++ callback_pass (callbacks (self m)) v ++
                          observer_pass (before ++ after) v /\
     world m' =
       after_pass ((of_callback <$> callbacks (self m)) ++
                   (of_observer <$> non_null (before ++ after))) v (world m)).
Proof.
  intros Hobs m0.
  assert (Hls : listeners (self m0) = listeners (self m)).
  { unfold listeners. simpl. rewrite Hobs, non_null_skip. reflexivity. }
  assert (Hpass : callback_pass (callbacks (self m)) v ++
                  observer_pass (before ++ after) v = pass (self m) v).
  { unfold pass, observer_pass. rewrite Hobs, non_null_skip. reflexivity. }
  assert (Hlist : (of_callback <$> callbacks (self m)) ++
                  (of_observer <$> non_null (before ++ after)) =
                  listeners (self m)).
  { exact Hls. }
  split; [|split; [|split; [|split; [|split]]]].
  - rewrite !setValue_deliver, Hls. apply behaviour_resume; reflexivity.
  - rewrite setValue_self. exact Hobs.
  - apply setValue_not_Terminated.
  - intros x m' Hm'.
    destruct (setValue_Thrown _ _ _ _ Hm')
      as (pre & l & post & w0 & Hl & Hact & _).
    exists l, w0. split; [|exact Hact].
    rewrite Hl. apply elem_of_app. right. apply elem_of_cons. left. reflexivity.
  - intros Hwb. destruct (setValue_returns v m Hwb) as [m' Hm'].
    exists m'. split; [exact Hm'|]. rewrite Hpass, Hlist. split; [|split].
    + apply (setValue_Normal _ _ _ Hm').
    + apply (setValue_Normal_world _ _ _ Hm').
    + intros who. apply invocations_pass.
  - intros m' Hm'. rewrite Hpass, Hlist. split.
    + apply (setValue_Normal _ _ _ Hm').
    + apply (setValue_Normal_world _ _ _ Hm').
Qed.

(** C6.  [clearCallbacksAndObservers] returns with both sequences empty and
    the value, the world and the trace as they were; calling it twice is
    the same as calling it once; a [setValue v] after it returns without
    invoking any listener, and [Get] then yields [v]. *)
Theorem clearCallbacksAndObservers_clears m v :
  clearCallbacksAndObservers m =
    Normal tt (with_self (mkLiveData [] [] (data_ (self m))) m) /\
  (clearCallbacksAndObservers;; clearCallbacksAndObservers) m =
    clearCallbacksAndObservers m /\
  (clearCallbacksAndObservers;; setValue v) m =
    Normal tt (with_self (mkLiveData [] [] v) m) /\
  (clearCallbacksAndObservers;; setValue v;; Get) m =
    Normal v (with_self (mkLiveData [] [] v) m).
Proof. repeat split. Qed.

(** C8.  The forwarding constructor returns a container whose [Get] yields
    [T(args...)]; the listener sequences are empty, and nothing is invoked:
    the world and the trace are the ones it was given. *)
Theorem LiveData_ctor_initial {Args : Type} (T_ctor : Args -> T)
    (args : Args) w (tr : list event) :
  exists m0,
    LiveData_ctor T_ctor args w tr = Normal tt m0 /\
    Get m0 = Normal (T_ctor args) m0 /\
    callbacks (self m0) = [] /\
    observers (self m0) = [] /\
    world m0 = w /\
    trace m0 = tr.
Proof. eexists. repeat split. Qed.

(** C9.  What each operation does to the two sequences, however it ends:
    a registration appends exactly one entry to its own sequence and leaves
    the other alone, [clearCallbacksAndObservers] empties both, and
    [setValue], [setValueQuietly], [Get] and [operator=] change neither.  So
    after any operation a sequence either still starts with all its old
    entries in place or is empty: no single entry is ever removed. *)
Theorem listener_sequences_step (o : op) m :
  let m' := final (run_op o m) in
  match o with
  | OpAddCallback f =>
      callbacks (self m') = callbacks (self m) ++ [f] /\
      observers (self m') = observers (self m)
  | OpAddObserver p =>
      callbacks (self m') = callbacks (self m) /\
      observers (self m') = observers (self m) ++ [p]
  | OpClear =>
      callbacks (self m') = [] /\ observers (self m') = []
  | OpSetValue _ | OpSetValueQuietly _ | OpGet | OpAssign _ =>
      callbacks (self m') = callbacks (self m) /\
      observers (self m') = observers (self m)
  end /\
  (callbacks (self m) `prefix_of` callbacks (self m') \/
   callbacks (self m') = []) /\
  (observers (self m) `prefix_of` observers (self m') \/
   observers (self m') = []).
Proof.
  assert (Hassign : forall v,
            self (final (run_op (OpAssign v) m)) = store v (self m)).
  { intros v. simpl run_op. rewrite bind_run, operator_assign_run.
    pose proof (setValue_self v m) as Hs.
    destruct (setValue v m); exact Hs. }
  destruct o as [f|p|v|v| |v| ]; cbv zeta.
  - simpl. repeat split; left; (reflexivity || apply prefix_app_r; reflexivity).
  - simpl. repeat split; left; (reflexivity || apply prefix_app_r; reflexivity).
  - simpl run_op. rewrite setValue_self. simpl. repeat split; left; reflexivity.
  - simpl. repeat split; left; reflexivity.
  - simpl. repeat split; left; reflexivity.
  - rewrite Hassign. simpl. repeat split; left; reflexivity.
  - simpl. repeat split; right; reflexivity.
Qed.

(** C10.  Registering the same callback [k] times stores [k] more entries
    (nothing is deduplicated), invokes nothing and leaves the value, the
    world and the observers alone.  A later [setValue] that returns has
    called that callback once per stored entry: [k] times more than the
    entries it already had, so exactly [k] times if it was not registered
    before; and its body has run that often: the world is the one left by
    the callbacks stored before, then the body of the callback [k] times
    in a row, then the non-null observers.  With listeners that never
    throw, that [setValue] returns.
    Registering one callback or one observer (null or not) likewise only
    appends the entry. *)
Theorem duplicate_callbacks m (f : OnChangedCallback) (k : nat) v
    (p : shared_ptr IObserver) :
  let who := Callback (cb_name f) in
  (exists m1,
     run_ops (replicate k (OpAddCallback f)) m = Normal tt m1 /\
     m1 = with_self (mkLiveData (callbacks (self m) ++ replicate k f)
                                (observers (self m)) (data_ (self m))) m /\
     registrations who (self m1) = registrations who (self m) + k /\
     (forall m2,
        setValue v m1 = Normal tt m2 ->
        exists es,
          trace m2 = trace m ++ es /\
          invocations who es =
          replicate (registrations who (self m) + k) (Invoked who v v) /\
          world m2 =
            after_pass (of_observer <$> non_null (observers (self m))) v
              (after_pass (replicate k (of_callback f)) v
                 (after_pass (of_callback <$> callbacks (self m)) v
                    (world m)))) /\
     (well_behaved (self m) -> nothrow (of_callback f) ->
      exists m2, setValue v m1 = Normal tt m2)) /\
  addObserver_callback f m =
    Normal tt (with_self (mkLiveData (callbacks (self m) ++ [f])
                                     (observers (self m)) (data_ (self m))) m) /\
  addObserver_observer p m =
    Normal tt (with_self (mkLiveData (callbacks (self m))
                                     (observers (self m) ++ [p])
                                     (data_ (self m))) m).
Proof.
  intros who. split; [|split; reflexivity].
  eexists. split.
  { rewrite run_registrations by apply is_registration_replicate.
    rewrite registered_callbacks_replicate, registered_observers_replicate.
    rewrite app_nil_r. reflexivity. }
  split; [reflexivity|].
  assert (Hreg : registrations who
                   (mkLiveData (callbacks (self m) ++ replicate k f)
                               (observers (self m)) (data_ (self m))) =
                 registrations who (self m) + k).
  { rewrite registrations_callbacks_app. unfold who.
    rewrite registrations_replicate. destruct (self m); reflexivity. }
  split; [exact Hreg|]. split.
  - intros m2 Hm2. pose proof (setValue_Normal_world _ _ _ Hm2) as Hw.
    apply setValue_Normal in Hm2 as [_ Htr].
    eexists. split; [exact Htr|]. split.
    + rewrite invocations_pass. simpl self. rewrite Hreg. reflexivity.
    + rewrite Hw. unfold listeners. simpl.
      rewrite fmap_app, fmap_replicate, !after_pass_app. reflexivity.
  - intros Hwb Hf. apply setValue_returns. unfold well_behaved, listeners in *.
    simpl. rewrite fmap_app, !Forall_app. rewrite Forall_app in Hwb.
    destruct Hwb as [Hcbs Hobs]. repeat split; [exact Hcbs| |exact Hobs].
    apply Forall_fmap, Forall_replicate. exact Hf.
Qed.

(** *** [operator=] when nothing throws

    Two facts next to C4 and C7: as long as [setValue] returns, [operator=]
    cannot be told apart from it, also in a chain. *)

Lemma operator_assign_behaviour v m m' :
  setValue v m = Normal tt m' ->
  behaviour (operator_assign v m) = behaviour (setValue v m).
Proof.
  intros Hs. rewrite (operator_assign_Normal _ _ _ Hs), Hs. reflexivity.
Qed.

Lemma operator_assign_chain v1 v2 m m2 :
  (setValue v1;; setValue v2) m = Normal tt m2 ->
  (operator_assign v1 ≫= fun _ => operator_assign v2) m = Normal (self m2) m2.
Proof.
  rewrite !bind_run.
  destruct (setValue v1 m) as [[] m1|x m1|m1] eqn:H1; try discriminate.
  intros H2. rewrite (operator_assign_Normal _ _ _ H1).
  apply operator_assign_Normal, H2.
Qed.

End Properties.

(** ** Beyond single calls *)

Section Sequences.

Context {T Exn World Name : Type} `{EqDecision Name}.

Local Abbreviation LiveData := (@LiveData T Exn World Name).
Local Abbreviation machine := (@machine T Exn World Name).
Local Abbreviation listener := (@listener T Exn World Name).
Local Abbreviation event := (@event T Name).
Local Abbreviation M := (@M T Exn World Name).
Local Abbreviation OnChangedCallback := (@OnChangedCallback T Exn World Name).
Local Abbreviation IObserver := (@IObserver T Exn World Name).
Local Abbreviation op := (@op T Exn World Name).

Implicit Types (m : machine) (s : LiveData) (v d : T) (w : World).
Implicit Types (ls : list listener) (es : list event).
Implicit Types (o : op) (os : list op).

(** *** One call *)

Lemma final_then_ret {A} (c : M A) m : final ((c;; mret tt) m) = final (c m).
Proof. rewrite bind_run. destruct (c m); reflexivity. Qed.

Lemma run_ops_cons o os m :
  run_ops (o :: os) m =
  match run_op o m with
  | Normal _ m1 => run_ops os m1
  | Thrown x m1 => Thrown x m1
  | Terminated m1 => Terminated m1
  end.
Proof. reflexivity. Qed.

(** However a call ends, the fields of the container are the ones its
    assignments give. *)
Lemma run_op_self o m : self (final (run_op o m)) = apply_op o (self m).
Proof.
  destruct o; simpl run_op; try reflexivity.
  - apply setValue_self.
  - rewrite final_then_ret, operator_assign_final. apply setValue_self.
Qed.

(** However a call ends, it has made an initial part of its pass. *)
Lemma run_op_prefix o m :
  exists es,
    trace (final (run_op o m)) = trace m ++ es /\
    (es `prefix_of` match notified o with
                    | Some v => pass (self m) v
                    | None => []
                    end).
Proof.
  destruct o; simpl run_op; simpl notified;
    try (exists []; split; [simpl; rewrite app_nil_r|]; reflexivity).
  - apply setValue_trace.
  - rewrite final_then_ret, operator_assign_final. apply setValue_trace.
Qed.

(** A call that returns has made its whole pass. *)
Lemma run_op_Normal o m m' :
  run_op o m = Normal tt m' ->
  self m' = apply_op o (self m) /\
  trace m' = trace m ++ match notified o with
                        | Some v => pass (self m) v
                        | None => []
                        end.
Proof.
  destruct o; simpl run_op; simpl notified; intros Hrun;
    try (injection Hrun as <-; simpl; rewrite app_nil_r; split; reflexivity).
  - apply setValue_Normal, Hrun.
  - rewrite bind_run, operator_assign_run in Hrun.
    destruct (setValue data m) as [[] m1|x m1|m1] eqn:Hset; try discriminate.
    injection Hrun as <-. apply setValue_Normal, Hset.
Qed.


(** A call that does not reach [notifyAll] returns, and touches neither the
    world nor the trace. *)
Lemma run_op_silent o m :
  notified o = None ->
  run_op o m = Normal tt (mkMachine (apply_op o (self m)) (world m) (trace m)).
Proof.
  destruct o; try discriminate; intros _; try reflexivity.
  destruct m; reflexivity.
Qed.


(** *** The invocations of a pass *)

Lemma Forall_prefix {A} (P : A -> Prop) (l1 l2 : list A) :
  l1 `prefix_of` l2 -> Forall P l2 -> Forall P l1.
Proof. intros [k ->] Hl. apply Forall_app in Hl. apply Hl. Qed.

Lemma pass_args s v : Forall (fun e => arg e = v /\ stored e = v) (pass s v).
Proof.
  rewrite pass_listeners. apply Forall_fmap, Forall_forall.
  intros l _. split; reflexivity.
Qed.

Lemma elem_of_listener_ids (who : listener_id)
    (cbs : list OnChangedCallback) (obs : list (shared_ptr IObserver)) :
  who ∈ listener_ids cbs obs <->
  (exists f, f ∈ cbs /\ who = Callback (cb_name f)) \/
  (exists p, Some p ∈ obs /\ who = Observer (obs_name p)).
Proof.
  unfold listener_ids, non_null.
  rewrite elem_of_app, !list_elem_of_fmap. split.
  - intros [(f & -> & Hf)|(p & -> & Hp)]; [left; eauto|right].
    apply list_elem_of_omap in Hp as (x & Hx & Hid).
    simpl in Hid. subst x. eauto.
  - intros [(f & Hf & ->)|(p & Hp & ->)]; [left; eauto|right].
    exists p. split; [reflexivity|].
    apply list_elem_of_omap. exists (Some p). split; [exact Hp|reflexivity].
Qed.

Lemma listener_ids_mono (cbs cbs' : list OnChangedCallback)
    (obs obs' : list (shared_ptr IObserver)) (who : listener_id) :
  cbs ⊆ cbs' -> obs ⊆ obs' ->
  who ∈ listener_ids cbs obs -> who ∈ listener_ids cbs' obs'.
Proof.
  intros Hc Ho. rewrite !elem_of_listener_ids.
  intros [(f & Hf & ->)|(p & Hp & ->)]; [left|right]; eauto.
Qed.

Lemma pass_sources s v :
  Forall (fun e => source e ∈ listener_ids (callbacks s) (observers s))
         (pass s v).
Proof.
  unfold pass, callback_pass, observer_pass, listener_ids.
  apply Forall_app. split; apply Forall_fmap, Forall_forall; intros x Hx; simpl.
  - apply elem_of_app. left. apply list_elem_of_fmap. eauto.
  - apply elem_of_app. right. apply list_elem_of_fmap. eauto.
Qed.

(** *** Sequences of calls *)

(** However a sequence of calls ends, the invocations made are an initial
    part of [full_trace]. *)
Lemma run_ops_prefix os m :
  exists es,
    trace (final (run_ops os m)) = trace m ++ es /\
    (es `prefix_of` full_trace os (self m)).
Proof.
  revert m. induction os as [|o os IH]; intros m.
  - exists []. split; [simpl; rewrite app_nil_r|]; reflexivity.
  - rewrite run_ops_cons. simpl full_trace.
    destruct (run_op_prefix o m) as (es0 & Htr0 & Hpre0).
    destruct (run_op o m) as [[] m1|x m1|m1] eqn:Hrun.
    + destruct (run_op_Normal _ _ _ Hrun) as [Hs1 Ht1].
      destruct (IH m1) as (es1 & Htr1 & Hpre1).
      eexists. split.
      * rewrite Htr1, Ht1, <- app_assoc. reflexivity.
      * rewrite Hs1 in Hpre1. apply prefix_app, Hpre1.
    + exists es0. split; [exact Htr0|]. apply prefix_app_r, Hpre0.
    + exists es0. split; [exact Htr0|]. apply prefix_app_r, Hpre0.
Qed.

(** A sequence of calls that returns has made all of [full_trace], and the
    fields of the container are the ones the assignments give. *)
Lemma run_ops_Normal os m m' :
  run_ops os m = Normal tt m' ->
  self m' = apply_ops os (self m) /\
  trace m' = trace m ++ full_trace os (self m).
Proof.
  revert m. induction os as [|o os IH]; intros m.
  - intros [= <-]. simpl. rewrite app_nil_r. split; reflexivity.
  - rewrite run_ops_cons.
    destruct (run_op o m) as [[] m1|x m1|m1] eqn:Hrun; try discriminate.
    intros Hrest. destruct (run_op_Normal _ _ _ Hrun) as [Hs1 Ht1].
    destruct (IH _ Hrest) as [Hs Ht]. split.
    + rewrite Hs, Hs1. reflexivity.
    + rewrite Ht, Ht1, Hs1, <- app_assoc. reflexivity.
Qed.




Lemma full_trace_values os s :
  Forall (fun e => arg e = stored e /\ arg e ∈ notified_values os)
         (full_trace os s).
Proof.
  revert s. induction os as [|o os IH]; intros s; [constructor|].
  simpl full_trace. unfold notified_values. simpl omap.
  apply Forall_app. split.
  - destruct (notified o) as [v|]; [|constructor].
    eapply Forall_impl; [apply pass_args|].
    intros e [-> ->]. split; [reflexivity|]. apply elem_of_cons. left.
    reflexivity.
  - eapply Forall_impl; [apply IH|].
    intros e [Hargs Hin]. split; [exact Hargs|].
    destruct (notified o); [apply elem_of_cons; right|]; exact Hin.
Qed.

Lemma full_trace_sources os s :
  Forall (fun e =>
            source e ∈ listener_ids (callbacks s ++ registered_callbacks os)
                                    (observers s ++ registered_observers os))
         (full_trace os s).
Proof.
  revert s. induction os as [|o os IH]; intros s; [constructor|].
  simpl full_trace. apply Forall_app. split.
  - destruct (notified o) as [v|]; [|constructor].
    eapply Forall_impl; [apply pass_sources|].
    intros e. apply listener_ids_mono; intros x Hx; apply elem_of_app; left;
      exact Hx.
  - eapply Forall_impl; [apply IH|].
    intros e. apply listener_ids_mono; intros x;
      unfold registered_callbacks, registered_observers;
      destruct o; simpl; rewrite ?elem_of_app, ?elem_of_cons, ?elem_of_nil;
      tauto.
Qed.

Lemma apply_ops_data os s :
  data_ (apply_ops os s) = default (data_ s) (last_written os).
Proof.
  revert s. induction os as [|o os IH]; intros s; [reflexivity|].
  unfold apply_ops. simpl foldl. fold (apply_ops os (apply_op o s)).
  rewrite IH. unfold last_written.
  change (omap written (o :: os))
    with (match written o with
          | Some x => x :: omap written os
          | None => omap written os
          end).
  generalize (omap written os). intros l.
  destruct o; simpl; try reflexivity;
    rewrite last_cons; destruct (last l); reflexivity.
Qed.

Lemma non_null_all_null (obs : list (shared_ptr IObserver)) :
  Forall (fun p => p = None) obs -> non_null obs = [].
Proof.
  induction 1 as [|p obs -> _ IH]; [reflexivity|]. exact IH.
Qed.

Lemma non_null_replicate_None (obs : list (shared_ptr IObserver)) k :
  non_null (obs ++ replicate k None) = non_null obs.
Proof.
  unfold non_null. rewrite omap_app.
  induction k as [|k IH]; simpl; [apply app_nil_r|exact IH].
Qed.

Lemma registered_replicate_observer (p : shared_ptr IObserver) k :
  registered_callbacks (replicate k (OpAddObserver p)) = [] /\
  registered_observers (replicate k (OpAddObserver p)) = replicate k p /\
  Forall is_registration (replicate k (OpAddObserver p)).
Proof.
  unfold registered_callbacks, registered_observers.
  induction k as [|k (IH1 & IH2 & IH3)]; simpl.
  - repeat split. constructor.
  - repeat split; [exact IH1|f_equal; exact IH2|].
    constructor; [exact I|exact IH3].
Qed.

Lemma non_null_app (obs1 obs2 : list (shared_ptr IObserver)) :
  non_null (obs1 ++ obs2) = non_null obs1 ++ non_null obs2.
Proof. apply omap_app. Qed.

Lemma non_null_replicate_Some (q : IObserver) k :
  non_null (replicate k (Some q)) = replicate k q.
Proof.
  induction k as [|k IH]; [reflexivity|].
  simpl replicate. unfold non_null in *. simpl. f_equal. exact IH.
Qed.

Lemma count_replicate_observer (q : IObserver) k :
  length (filter (fun l : listener => ident l = Observer (obs_name q))
                 (of_observer <$> replicate k q)) = k.
Proof.
  induction k as [|k IH]; [reflexivity|].
  simpl replicate. rewrite fmap_cons, filter_cons. simpl.
  destruct (decide _) as [_|Hne]; [|contradiction].
  simpl. rewrite IH. reflexivity.
Qed.

Lemma registrations_observers_replicate (q : IObserver) k
    (cbs : list OnChangedCallback) (obs : list (shared_ptr IObserver)) d :
  registrations (Observer (obs_name q))
    (mkLiveData cbs (obs ++ replicate k (Some q)) d) =
  registrations (Observer (obs_name q)) (mkLiveData cbs obs d) + k.
Proof.
  unfold registrations, listeners. simpl.
  rewrite non_null_app, non_null_replicate_Some, fmap_app.
  rewrite !filter_app, !length_app, count_replicate_observer. lia.
Qed.

(** ** Further properties of the code *)

(** X1.  [setValue] does not roll back.  When a listener throws out of
    [setValue v], the container already holds [v] ([Get] yields it), both
    sequences are as before, and the invocations made are exactly those of
    the listeners registered before the one that threw, in order, followed
    by the one that threw; no later listener was called. *)
Theorem setValue_throw_keeps_new_value v m x m' :
  setValue v m = Thrown x m' ->
  Get m' = Normal v m' /\
  callbacks (self m') = callbacks (self m) /\
  observers (self m') = observers (self m) /\
  exists before l after,
    listeners (self m) = before ++ l :: after /\
    trace m' = trace m ++ ((fun l => Invoked (ident l) v v) <$> before) ++
                          [Invoked (ident l) v v] /\
    exists w0, act l v w0 = Throw x (world m').
Proof.
  intros Hthrow.
  destruct (setValue_Thrown _ _ _ _ Hthrow)
    as (before & l & after & w0 & Hls & Hact & Hself & Htr).
  split; [|split; [|split]].
  - unfold Get, noexcept, gets. rewrite Hself. reflexivity.
  - rewrite Hself. reflexivity.
  - rewrite Hself. reflexivity.
  - exists before, l, after. split; [exact Hls|]. split; [|eauto].
    rewrite Htr, fmap_app. reflexivity.
Qed.

(** X2.  [operator=] never hands an exception to its caller.  It returns
    exactly when [setValue] returns (with the same machine, yielding the
    container), and it calls [std::terminate] exactly when [setValue]
    throws (at the machine where [setValue] threw).  With listeners that
    never throw it returns. *)
Theorem operator_assign_never_throws v m :
  (forall x m', operator_assign v m <> Thrown x m') /\
  (forall m',
     operator_assign v m = Terminated m' <->
     exists x, setValue v m = Thrown x m') /\
  (forall s m',
     operator_assign v m = Normal s m' <->
     setValue v m = Normal tt m' /\ s = self m') /\
  (well_behaved (self m) ->
   exists m', operator_assign v m = Normal (self m') m').
Proof.
  rewrite operator_assign_run.
  pose proof (setValue_not_Terminated v m) as Hnt.
  split; [|split; [|split]].
  - intros x m'. destruct (setValue v m); discriminate.
  - intros m'. destruct (setValue v m) as [[] m1|x m1|m1]; split.
    + discriminate.
    + intros [x Hx]. discriminate.
    + intros [= <-]. eauto.
    + intros [y [= _ <-]]. reflexivity.
    + intros _. exfalso. exact (Hnt m1 eq_refl).
    + intros [x Hx]. discriminate.
  - intros s m'. destruct (setValue v m) as [[] m1|x m1|m1]; split;
      try discriminate; try (intros [Hx _]; discriminate).
    + intros [= <- <-]. split; reflexivity.
    + intros [[= <-] ->]. reflexivity.
  - intros Hwb. destruct (setValue_returns v m Hwb) as [m' Hm'].
    exists m'. rewrite Hm'. reflexivity.
Qed.

(** X3.  On a container with no callback and only null pointers as
    observers, [setValue] is [setValueQuietly]. *)
Theorem setValue_without_listeners v m :
  callbacks (self m) = [] ->
  Forall (fun p => p = None) (observers (self m)) ->
  setValue v m = setValueQuietly v m.
Proof.
  intros Hcbs Hobs. rewrite setValue_deliver.
  unfold listeners. rewrite Hcbs, (non_null_all_null _ Hobs). simpl.
  unfold resume, with_self, store. simpl. rewrite app_nil_r. reflexivity.
Qed.

(** X4.  There is no change detection: [setValue] with the value the
    container already holds leaves the container as it is and still makes
    the whole notification pass, one invocation per callback and per
    non-null observer, and the bodies of all those listeners act on the
    world in turn.  With listeners that never throw it returns. *)
Theorem setValue_same_value_notifies m :
  (forall m',
     setValue (data_ (self m)) m = Normal tt m' ->
     self m' = self m /\
     trace m' = trace m ++ pass (self m) (data_ (self m)) /\
     world m' = after_pass (listeners (self m)) (data_ (self m)) (world m) /\
     length (pass (self m) (data_ (self m))) =
       length (callbacks (self m)) + length (non_null (observers (self m)))) /\
  (well_behaved (self m) ->
   exists m', setValue (data_ (self m)) m = Normal tt m').
Proof.
  split; [|apply setValue_returns].
  intros m' Hm'. destruct (setValue_Normal _ _ _ Hm') as [Hs Ht].
  split; [|split; [|split]].
  - rewrite Hs. destruct (self m). reflexivity.
  - exact Ht.
  - apply (setValue_Normal_world _ _ _ Hm').
  - unfold pass, callback_pass, observer_pass.
    rewrite length_app, !length_fmap. reflexivity.
Qed.

(** X5.  Last write wins.  After a sequence of calls that returns, [Get]
    yields the value of the last [setValue], [setValueQuietly] or
    [operator=] in it, and the value held before if there is none. *)
Theorem run_ops_last_write_wins os m m' :
  run_ops os m = Normal tt m' ->
  Get m' = Normal (default (data_ (self m)) (last_written os)) m'.
Proof.
  intros Hrun. destruct (run_ops_Normal _ _ _ Hrun) as [Hs _].
  unfold Get, noexcept, gets. rewrite Hs, apply_ops_data. reflexivity.
Qed.

(** X6.  Listeners only ever see values that were set aloud.  However a
    sequence of calls ends, every invocation it made passed the value the
    container held at that moment, and that value is the argument of a
    [setValue] or [operator=] of the sequence: never the initial value and
    never a value of [setValueQuietly] alone. *)
Theorem run_ops_listeners_see_set_values os m :
  exists es,
    trace (final (run_ops os m)) = trace m ++ es /\
    Forall (fun e => arg e = stored e /\ arg e ∈ notified_values os) es.
Proof.
  destruct (run_ops_prefix os m) as (es & Htr & Hpre).
  exists es. split; [exact Htr|].
  eapply Forall_prefix; [exact Hpre|apply full_trace_values].
Qed.

(** X7.  A sequence of calls without [setValue] and [operator=]
    (registrations, [setValueQuietly], [Get], clearing) returns and calls
    no listener, whatever listeners are registered; the fields are the ones
    the calls assign. *)
Theorem run_ops_silent os m :
  Forall (fun o => notified o = None) os ->
  exists m',
    run_ops os m = Normal tt m' /\
    self m' = apply_ops os (self m) /\
    trace m' = trace m.
Proof.
  intros Hos. revert m. induction Hos as [|o os Ho _ IH]; intros m.
  - exists m. repeat split.
  - rewrite run_ops_cons, (run_op_silent _ _ Ho).
    destruct (IH (mkMachine (apply_op o (self m)) (world m) (trace m)))
      as (m' & Hrun & Hself & Htr).
    exists m'. split; [exact Hrun|]. split; [exact Hself|exact Htr].
Qed.

(** X8.  Clearing detaches.  In whatever is called after
    [clearCallbacksAndObservers], and however it ends, every invocation is
    of a callback or observer registered after the clearing: a listener
    registered only before it is never called again. *)
Theorem clear_detaches_listeners os m :
  exists es,
    trace (final (run_ops (OpClear :: os) m)) = trace m ++ es /\
    Forall (fun e => source e ∈ listener_ids (registered_callbacks os)
                                             (registered_observers os)) es.
Proof.
  destruct (run_ops_prefix (OpClear :: os) m) as (es & Htr & Hpre).
  exists es. split; [exact Htr|].
  eapply Forall_prefix; [exact Hpre|].
  simpl full_trace.
  exact (full_trace_sources os (mkLiveData [] [] (data_ (self m)))).
Qed.


(** X10.  Observer pointers are not deduplicated either.  Registering the
    same non-null observer [k] times stores [k] more entries and invokes
    nothing; a later [setValue] that returns has called it once per stored
    entry, and its [Observe] has acted on the world [k] more times, after
    all the listeners stored before.  Registering the null pointer [k]
    times stores [k] entries that change nothing in what [setValue] does:
    when it returns, the listeners stored before have acted and nothing
    else. *)
Theorem duplicate_observers m (q : IObserver) (k : nat) v :
  let who := Observer (obs_name q) in
  (exists m1,
     run_ops (replicate k (OpAddObserver (Some q))) m = Normal tt m1 /\
     m1 = with_self (mkLiveData (callbacks (self m))
                                (observers (self m) ++ replicate k (Some q))
                                (data_ (self m))) m /\
     registrations who (self m1) = registrations who (self m) + k /\
     forall m2,
       setValue v m1 = Normal tt m2 ->
       exists es,
         trace m2 = trace m ++ es /\
         invocations who es =
         replicate (registrations who (self m) + k) (Invoked who v v) /\
         world m2 =
           after_pass (replicate k (of_observer q)) v
             (after_pass (listeners (self m)) v (world m))) /\
  (exists m1,
     run_ops (replicate k (OpAddObserver None)) m = Normal tt m1 /\
     length (observers (self m1)) = length (observers (self m)) + k /\
     behaviour (setValue v m1) = behaviour (setValue v m) /\
     forall m2,
       setValue v m1 = Normal tt m2 ->
       trace m2 = trace m ++ pass (self m) v /\
       world m2 = after_pass (listeners (self m)) v (world m)).
Proof.
  intros who. split.
  - destruct (registered_replicate_observer (Some q) k) as (Hc & Ho & Hreg).
    eexists. split.
    { rewrite (run_registrations _ _ Hreg), Hc, Ho, app_nil_r. reflexivity. }
    split; [reflexivity|].
    assert (Hcount :
      registrations who
        (mkLiveData (callbacks (self m))
                    (observers (self m) ++ replicate k (Some q))
                    (data_ (self m))) = registrations who (self m) + k).
    { unfold who. rewrite registrations_observers_replicate.
      destruct (self m); reflexivity. }
    split; [exact Hcount|].
    intros m2 Hm2. pose proof (setValue_Normal_world _ _ _ Hm2) as Hw.
    apply setValue_Normal in Hm2 as [_ Htr].
    eexists. split; [exact Htr|]. split.
    + rewrite invocations_pass. f_equal. exact Hcount.
    + rewrite Hw. unfold listeners. simpl.
      rewrite non_null_app, non_null_replicate_Some, fmap_app, fmap_replicate.
      rewrite !after_pass_app. reflexivity.
  - destruct (registered_replicate_observer None k) as (Hc & Ho & Hreg).
    eexists. split.
    { rewrite (run_registrations _ _ Hreg), Hc, Ho, app_nil_r. reflexivity. }
    split; [|split].
    + simpl. rewrite length_app, length_replicate. reflexivity.
    + rewrite !setValue_deliver. unfold listeners. simpl.
      rewrite non_null_replicate_None. apply behaviour_resume; reflexivity.
    + intros m2 Hm2. pose proof (setValue_Normal_world _ _ _ Hm2) as Hw.
      apply setValue_Normal in Hm2 as [_ Htr]. split.
      * rewrite Htr. unfold pass, observer_pass. simpl.
        rewrite non_null_replicate_None. reflexivity.
      * rewrite Hw. unfold listeners. simpl.
        rewrite non_null_replicate_None. reflexivity.
Qed.

(** X11.  Listeners act on the world one after the other.  When [setValue]
    returns, the world is the one obtained by letting every callback, then
    every non-null observer, act in sequence order, each on the world the
    previous one left.  When it throws [x], the listeners split into those
    before, one listener [l] and those after: the ones before all returned,
    acting in turn; [l], called on the world they left, threw [x], and the
    world is the one [l] left when it threw, so none of those after has
    acted; the invocations recorded are those of the ones before and of
    [l]. *)
Theorem setValue_world_effect v m :
  (forall m',
     setValue v m = Normal tt m' ->
     world m' = after_pass (listeners (self m)) v (world m)) /\
  (forall x m',
     setValue v m = Thrown x m' ->
     exists before l after,
       listeners (self m) = before ++ l :: after /\
       (deliver before v (world m)).2 =
         Ret (after_pass before v (world m)) /\
       act l v (after_pass before v (world m)) = Throw x (world m') /\
       world m' = after_pass (before ++ [l]) v (world m) /\
       trace m' =
         trace m ++ ((fun l => Invoked (ident l) v v) <$> (before ++ [l]))).
Proof.
  split; [apply setValue_Normal_world|].
  intros x m'. rewrite setValue_deliver. unfold resume.
  pose proof (deliver_Throw (listeners (self m)) v (world m)) as Ht.
  destruct (deliver _ _ _) as [es [w1|y w1]]; simpl in *; [discriminate|].
  intros [= -> <-]. simpl.
  destruct (Ht x w1 eq_refl) as (before & l & after & w0 & Hls & Hl & Hb & Hes).
  pose proof (deliver_Ret_world _ _ _ _ Hb) as Hw0. subst w0.
  exists before, l, after. split; [exact Hls|]. split; [exact Hb|].
  split; [exact Hl|]. split.
  - rewrite after_pass_app. unfold after_pass at 1. simpl.
    unfold effect. rewrite Hl. reflexivity.
  - rewrite Hes. reflexivity.
Qed.

End Sequences.

(** ** The concrete program *)

Open Scope Z_scope.

(** The listeners of the concrete program that write to the log never
    throw. *)
Lemma plain_well_behaved : well_behaved (self Demo.plain).
Proof. repeat constructor; intros d w; eexists; reflexivity. Defined.

(** C7.  In [broken] the second of three callbacks throws.  [setValue 5]
    stops there and hands the exception to its caller: callback B and
    observer P are not called.  [operator=] on the same container does not
    hand the exception to its caller: being [noexcept], it ends in
    [std::terminate]. *)
Theorem operator_assign_throw_terminates :
  let made := [Invoked (Callback "A") 5 5; Invoked (Callback "boom") 5 5] in
  behaviour (setValue 5 Demo.broken) = (Raised "boom", ["A"], made) /\
  behaviour (operator_assign 5 Demo.broken) = (Aborted, ["A"], made) /\
  forall x m', operator_assign 5 Demo.broken <> Thrown x m'.
Proof.
  repeat split. intros x m'. rewrite operator_assign_run.
  destruct (setValue 5 Demo.broken); discriminate.
Qed.

(** C4.  In [broken_observer] the first observer throws.  [setValue 1] and
    [operator=] with the same value make the same invocations and leave the
    same value, but they do not end alike: the first throws to its caller,
    the second terminates the program; a chain of two assignments never
    reaches the second one. *)
Theorem operator_assign_differs_from_setValue :
  let made := [Invoked (Callback "A") 1 1; Invoked (Observer "bang") 1 1] in
  behaviour (setValue 1 Demo.broken_observer) = (Raised "bang", ["A"], made) /\
  behaviour (operator_assign 1 Demo.broken_observer) = (Aborted, ["A"], made) /\
  behaviour ((operator_assign 1 ≫= fun _ => operator_assign 2)
               Demo.broken_observer) = (Aborted, ["A"], made) /\
  behaviour (operator_assign 1 Demo.broken_observer) <>
  behaviour (setValue 1 Demo.broken_observer).
Proof. repeat split. discriminate. Qed.

(** The spec's scenario on [plain]: two calls of [setValue]. *)
Lemma setValue_twice_witness :
  well_behaved (self Demo.plain) /\
  exists m2,
    (setValue 1;; setValue 2) Demo.plain = Normal tt m2 /\
    Get m2 = Normal 2 m2 /\
    trace m2 =
      [Invoked (Callback "A") 1 1; Invoked (Callback "B") 1 1;
       Invoked (Observer "P") 1 1;
       Invoked (Callback "A") 2 2; Invoked (Callback "B") 2 2;
       Invoked (Observer "P") 2 2] /\
    world m2 = ["A"; "B"; "P"; "A"; "B"; "P"] /\
    invocations (Callback "B")
      (pass (self Demo.plain) 1 ++ pass (self Demo.plain) 2) =
      [Invoked (Callback "B") 1 1; Invoked (Callback "B") 2 2].
Proof.
  split; [exact plain_well_behaved|].
  destruct (setValue_twice Demo.plain 1 2) as [Hpost Hret].
  destruct (Hret plain_well_behaved) as [m2 Hm2].
  exists m2. split; [exact Hm2|].
  destruct (Hpost m2 Hm2) as (Hget & Htr & Hw & Hinv).
  split; [exact Hget|]. split; [exact Htr|].
  split; [rewrite Hw; vm_compute; reflexivity|]. exact (Hinv (Callback "B")).
Defined.

Lemma notification_order_witness :
  Forall is_registration
    [OpAddCallback (Demo.logger "C"); OpAddObserver None] /\
  exists m' m1,
    setValue 5 Demo.plain = Normal tt m' /\
    operator_assign 5 Demo.plain = Normal (self m') m' /\
    trace m' =
      [Invoked (Callback "A") 5 5; Invoked (Callback "B") 5 5;
       Invoked (Observer "P") 5 5] /\
    world m' = ["A"; "B"; "P"] /\
    run_ops [OpAddCallback (Demo.logger "C"); OpAddObserver None] Demo.plain =
      Normal tt m1 /\
    callbacks (self m1) =
      [Demo.logger "A"; Demo.logger "B"; Demo.logger "C"].
Proof.
  assert (Hregs : Forall is_registration
            [OpAddCallback (Demo.logger "C");
             @OpAddObserver Z string Demo.log string None])
    by (repeat constructor).
  split; [exact Hregs|].
  destruct (notification_order Demo.plain 5)
    as (_ & _ & _ & _ & Hset & _ & Hwb & Hreg & _ & Hworld & _).
  destruct (Hwb plain_well_behaved) as (m' & Hm' & Hassign).
  destruct (Hreg _ Hregs) as (m1 & Hm1 & Hcbs & _).
  exists m', m1. split; [exact Hm'|]. split; [exact Hassign|].
  split; [exact (Hset m' Hm')|].
  split; [rewrite (Hworld m' Hm'); vm_compute; reflexivity|].
  split; [exact Hm1|exact Hcbs].
Defined.

Lemma null_observer_skipped_witness :
  observers (self Demo.plain) = [] ++ None :: [Some (Demo.watcher "P")] /\
  exists m',
    setValue 5 Demo.plain = Normal tt m' /\
    trace m' =
      [Invoked (Callback "A") 5 5; Invoked (Callback "B") 5 5;
       Invoked (Observer "P") 5 5] /\
    world m' = ["A"; "B"; "P"].
Proof.
  split; [reflexivity|].
  destruct (null_observer_skipped Demo.plain 5 [] [Some (Demo.watcher "P")]
              eq_refl) as (_ & _ & _ & _ & Hwb & Hpost).
  destruct (Hwb plain_well_behaved) as (m' & Hm' & Htr & _).
  destruct (Hpost m' Hm') as [_ Hw].
  exists m'. split; [exact Hm'|]. split; [exact Htr|].
  rewrite Hw. vm_compute. reflexivity.
Defined.

Lemma duplicate_callbacks_witness :
  nothrow (of_callback (Demo.logger "C")) /\
  exists m1 m2 es,
    run_ops (replicate 3 (OpAddCallback (Demo.logger "C"))) Demo.plain =
      Normal tt m1 /\
    setValue 7 m1 = Normal tt m2 /\
    trace m2 = es /\
    invocations (Callback "C") es =
      [Invoked (Callback "C") 7 7; Invoked (Callback "C") 7 7;
       Invoked (Callback "C") 7 7] /\
    world m2 = ["A"; "B"; "C"; "C"; "C"; "P"].
Proof.
  assert (Hc : nothrow (of_callback (Demo.logger "C")))
    by (intros d w; eexists; reflexivity).
  split; [exact Hc|].
  destruct (duplicate_callbacks Demo.plain (Demo.logger "C") 3 7 None)
    as [(m1 & Hm1 & _ & _ & Hcount & Hret) _].
  destruct (Hret plain_well_behaved Hc) as [m2 Hm2].
  destruct (Hcount m2 Hm2) as (es & Htr & Hes & Hw).
  exists m1, m2, es. split; [exact Hm1|]. split; [exact Hm2|].
  split; [exact Htr|]. split; [exact Hes|].
  rewrite Hw. vm_compute. reflexivity.
Defined.

(** *** The further properties on the concrete program *)

Lemma setValue_throw_keeps_new_value_witness :
  exists m',
    setValue 5 Demo.broken = Thrown "boom" m' /\
    Get m' = Normal 5 m' /\
    callbacks (self m') = callbacks (self Demo.broken).
Proof.
  assert (Hthrow : setValue 5 Demo.broken =
                   Thrown "boom" (final (setValue 5 Demo.broken)))
    by (vm_compute; reflexivity).
  exists (final (setValue 5 Demo.broken)). split; [exact Hthrow|].
  destruct (setValue_throw_keeps_new_value 5 Demo.broken "boom" _ Hthrow)
    as (Hget & Hcbs & _).
  split; [exact Hget|exact Hcbs].
Defined.

Lemma operator_assign_never_throws_witness :
  well_behaved (self Demo.plain) /\
  (exists m', operator_assign 5 Demo.broken = Terminated m') /\
  (exists m', operator_assign 5 Demo.plain = Normal (self m') m').
Proof.
  split; [exact plain_well_behaved|]. split.
  - exists (final (setValue 5 Demo.broken)).
    apply (proj2 (proj1 (proj2 (operator_assign_never_throws 5 Demo.broken)) _)).
    exists "boom". vm_compute. reflexivity.
  - exact (proj2 (proj2 (proj2 (operator_assign_never_throws 5 Demo.plain)))
             plain_well_behaved).
Defined.

Lemma setValue_without_listeners_witness :
  callbacks (self Session.only_nulls) = [] /\
  Forall (fun p => p = None) (observers (self Session.only_nulls)) /\
  setValue 3 Session.only_nulls = setValueQuietly 3 Session.only_nulls.
Proof.
  assert (Hnull : Forall (fun p : shared_ptr Demo.obs => p = None)
                         (observers (self Session.only_nulls)))
    by (repeat constructor).
  split; [reflexivity|]. split; [exact Hnull|].
  exact (setValue_without_listeners 3 Session.only_nulls eq_refl Hnull).
Defined.

Lemma setValue_same_value_notifies_witness :
  well_behaved (self Demo.plain) /\
  exists m',
    setValue 0 Demo.plain = Normal tt m' /\
    self m' = self Demo.plain /\
    trace m' =
      [Invoked (Callback "A") 0 0; Invoked (Callback "B") 0 0;
       Invoked (Observer "P") 0 0] /\
    world m' = ["A"; "B"; "P"].
Proof.
  split; [exact plain_well_behaved|].
  destruct (setValue_same_value_notifies Demo.plain) as [Hpost Hret].
  destruct (Hret plain_well_behaved) as [m' Hm'].
  exists m'. split; [exact Hm'|].
  destruct (Hpost m' Hm') as (Hself & Htr & Hw & _).
  split; [exact Hself|]. split; [exact Htr|].
  rewrite Hw. vm_compute. reflexivity.
Defined.

Lemma run_ops_last_write_wins_witness :
  exists m',
    run_ops Session.calls Session.empty = Normal tt m' /\
    Get m' = Normal 1 m'.
Proof.
  assert (Hrun : run_ops Session.calls Session.empty =
                 Normal tt (final (run_ops Session.calls Session.empty)))
    by (vm_compute; reflexivity).
  exists (final (run_ops Session.calls Session.empty)).
  split; [exact Hrun|].
  rewrite (run_ops_last_write_wins Session.calls Session.empty _ Hrun).
  reflexivity.
Defined.

Lemma run_ops_silent_witness :
  Forall (fun o => notified o = None) Session.silent_calls /\
  exists m',
    run_ops Session.silent_calls Demo.broken = Normal tt m' /\
    self m' = mkLiveData [] [] 9 /\
    trace m' = [].
Proof.
  assert (Hsilent : Forall (fun o => notified o = None) Session.silent_calls)
    by (repeat constructor).
  split; [exact Hsilent|].
  destruct (run_ops_silent Session.silent_calls Demo.broken Hsilent)
    as (m' & Hrun & Hself & Htr).
  exists m'. split; [exact Hrun|].
  split; [rewrite Hself; vm_compute; reflexivity|exact Htr].
Defined.


Lemma duplicate_observers_witness :
  exists m1 m2 es,
    run_ops (replicate 2 (OpAddObserver (Some (Demo.watcher "P")))) Demo.plain =
      Normal tt m1 /\
    setValue 7 m1 = Normal tt m2 /\
    trace m2 = es /\
    invocations (Observer "P") es =
      [Invoked (Observer "P") 7 7; Invoked (Observer "P") 7 7;
       Invoked (Observer "P") 7 7] /\
    world m2 = ["A"; "B"; "P"; "P"; "P"].
Proof.
  destruct (duplicate_observers Demo.plain (Demo.watcher "P") 2 7)
    as [(m1 & Hm1 & Heq & _ & Hcount) _].
  assert (Hm2 : setValue 7 m1 = Normal tt (final (setValue 7 m1)))
    by (rewrite Heq; vm_compute; reflexivity).
  destruct (Hcount _ Hm2) as (es & Htr & Hes & Hw).
  exists m1, (final (setValue 7 m1)), es.
  split; [exact Hm1|]. split; [exact Hm2|].
  split; [exact Htr|]. split; [exact Hes|].
  rewrite Hw. vm_compute. reflexivity.
Defined.

Lemma setValue_world_effect_witness :
  (exists m',
     setValue 5 Demo.plain = Normal tt m' /\
     world m' = ["A"; "B"; "P"]) /\
  (exists m',
     setValue 5 Demo.broken = Thrown "boom" m' /\
     exists before l after,
       listeners (self Demo.broken) = before ++ l :: after /\
       act l 5 (after_pass before 5 (world Demo.broken)) =
         Throw "boom" (world m') /\
       world m' = after_pass (before ++ [l]) 5 (world Demo.broken)).
Proof.
  split.
  - assert (Hset : setValue 5 Demo.plain =
                   Normal tt (final (setValue 5 Demo.plain)))
      by (vm_compute; reflexivity).
    exists (final (setValue 5 Demo.plain)). split; [exact Hset|].
    rewrite (proj1 (setValue_world_effect 5 Demo.plain) _ Hset).
    vm_compute. reflexivity.
  - assert (Hthrow : setValue 5 Demo.broken =
                     Thrown "boom" (final (setValue 5 Demo.broken)))
      by (vm_compute; reflexivity).
    exists (final (setValue 5 Demo.broken)). split; [exact Hthrow|].
    destruct (proj2 (setValue_world_effect 5 Demo.broken) _ _ Hthrow)
      as (before & l & after & Hls & _ & Hl & Hw & _).
    exists before, l, after. split; [exact Hls|]. split; [exact Hl|exact Hw].
Defined.
